(** * sensor_pack: bit fields, bus adapters and the device facade

    A shallow embedding of [bitfield.py], [bus_service.py] and the
    [Device] class of [base_sensor.py], followed by the properties of
    the register-access layer.

    Python integers are unbounded, so they are [Z]; [&], [|], [~], [<<]
    and [>>] are [Z.land], [Z.lor], [Z.lnot], [Z.shiftl] and [Z.shiftr]
    (two's complement with infinite sign extension on both sides).
    Code that can raise returns a [result]; code that talks to pins or
    to a bus runs in the monad [M] over a [world] that records every
    external call. *)

From Stdlib Require Import ZArith List String Ascii Bool Lia DecimalString.
From Stdlib Require Import Init.Byte.
Import ListNotations.

Local Open Scope string_scope.
Local Open Scope Z_scope.

(** ** Exceptions and results *)

Inductive exn : Type :=
| ValueError (msg : string)
| OverflowError (msg : string)
| TypeError (msg : string)
| IndexError (msg : string)
| OSError (errno : Z)
| NotImplementedError.

Inductive result (A : Type) : Type :=
| Ok (a : A)
| Raise (e : exn).

Arguments Ok {A} a.
Arguments Raise {A} e.

Definition rbind {A B : Type} (r : result A) (k : A -> result B) : result B :=
  match r with
  | Ok a => k a
  | Raise e => Raise e
  end.

Definition is_ValueError (e : exn) : bool :=
  match e with
  | ValueError _ => true
  | _ => false
  end.

(** ** The builtins the three files call *)

Module Py.

(** [str(n)] for an integer, as an f-string field prints it. *)
Definition str_int (n : Z) : string := NilZero.string_of_int (Z.to_int n).

(** [range(a, b)]: the integers [a, a+1, ..., b-1], empty when [b <= a]. *)
Definition range (a b : Z) : list Z :=
  map (fun k => a + Z.of_nat k) (seq 0 (Z.to_nat (b - a))).

(** [a << n] and [a >> n]: a negative count is a [ValueError]. *)
Definition lshift (a n : Z) : result Z :=
  if n <? 0 then Raise (ValueError "negative shift count")
  else Ok (Z.shiftl a n).

Definition rshift (a n : Z) : result Z :=
  if n <? 0 then Raise (ValueError "negative shift count")
  else Ok (Z.shiftr a n).

(** A byte holding [z mod 256]. *)
Definition byte_of_Z (z : Z) : byte :=
  match Byte.of_N (Z.to_N (z mod 256)) with
  | Some b => b
  | None => x00
  end.

Definition Z_of_byte (b : byte) : Z := Z.of_N (Byte.to_N b).

(** The [n] low bytes of [v], least significant first. *)
Fixpoint le_bytes (n : nat) (v : Z) : list byte :=
  match n with
  | O => []
  | S k => byte_of_Z v :: le_bytes k (v / 256)
  end.

(** [int.from_bytes(buf, "little")]. *)
Fixpoint le_value (buf : list byte) : Z :=
  match buf with
  | [] => 0
  | b :: rest => Z_of_byte b + 256 * le_value rest
  end.

(** [int.to_bytes(length, byteorder)] of an unsigned conversion: the
    byte order is checked first, then the length, then the range of
    the integer. *)
Definition to_bytes (v length : Z) (byteorder : string) : result (list byte) :=
  if negb (String.eqb byteorder "little" || String.eqb byteorder "big") then
    Raise (ValueError "byteorder must be either 'little' or 'big'")
  else if length <? 0 then
    Raise (ValueError "length argument must be non-negative")
  else if v <? 0 then
    Raise (OverflowError "can't convert negative int to unsigned")
  else if 256 ^ length <=? v then
    Raise (OverflowError "int too big to convert")
  else
    let le := le_bytes (Z.to_nat length) v in
    Ok (if String.eqb byteorder "little" then le else rev le).

(** [int.from_bytes(buf, byteorder)] for the two byte orders. *)
Definition from_bytes (buf : list byte) (byteorder : string) : Z :=
  if String.eqb byteorder "little" then le_value buf else le_value (rev buf).

(** [s[0]] on a string: its first character, as a string. *)
Definition str_first (s : string) : result string :=
  match s with
  | EmptyString => Raise (IndexError "string index out of range")
  | String c _ => Ok (String c EmptyString)
  end.

End Py.

(** ** bitfield.py *)

Module BitField.

Record t : Type := mk {
  alias : string;
  start : Z;
  stop : Z;
  bitmask : Z
}.

(** The body of the [for] loop of [_bitmask], over the values [range]
    still has to yield: [res |= 1 << i]. *)
Fixpoint bitmask_loop (todo : list Z) (res : Z) : result Z :=
  match todo with
  | [] => Ok res
  | i :: rest => rbind (Py.lshift 1 i) (fun b => bitmask_loop rest (Z.lor res b))
  end.

Definition _bitmask (start stop : Z) : result Z :=
  bitmask_loop (Py.range start (1 + stop)) 0.

(** The [ValueError] that [__init__] raises for [start > stop]. *)
Definition InvalidRange (start stop : Z) : exn :=
  ValueError ("Invalid start: " ++ Py.str_int start
              ++ ", stop value: " ++ Py.str_int stop).

Definition __init__ (alias : string) (start stop : Z) : result t :=
  if start >? stop then Raise (InvalidRange start stop)
  else rbind (_bitmask start stop) (fun m => Ok (mk alias start stop m)).

Definition put (self : t) (source value : Z) : result Z :=
  let src := Z.land source (Z.lnot (bitmask self)) in
  rbind (Py.lshift value (start self)) (fun shifted =>
  Ok (Z.lor src (Z.land shifted (bitmask self)))).

Definition get (self : t) (source : Z) : result Z :=
  Py.rshift (Z.land source (bitmask self)) (start self).

End BitField.

(** ** The machine under the adapters

    [machine.Pin], [machine.I2C] and [machine.SPI] are the platform's.
    A pin is its identity and a level; the bus is a transport whose
    every method either returns a value or raises, as a function of the
    calls made so far. *)

Definition pin : Type := nat.

Inductive pyval : Type :=
| VNone
| VBool (b : bool)
| VInt (z : Z)
| VStr (s : string)
| VBytes (b : list byte)
| VByteArray (b : list byte).

(** [isinstance(value, int)]; [bool] is a subclass of [int]. *)
Definition isinstance_int (v : pyval) : option Z :=
  match v with
  | VInt z => Some z
  | VBool b => Some (if b then 1 else 0)
  | _ => None
  end.

(** [isinstance(value, (bytes, bytearray))]. *)
Definition isinstance_bytes (v : pyval) : bool :=
  match v with
  | VBytes _ | VByteArray _ => true
  | _ => false
  end.

(** [len(buf)] of a bytes-like value. *)
Definition py_len (v : pyval) : option nat :=
  match v with
  | VBytes b | VByteArray b => Some (List.length b)
  | _ => None
  end.

Inductive call : Type :=
| Pin_low (p : pin)
| Pin_high (p : pin)
| Pin_value (p : pin) (v : bool)
| I2C_writeto_mem (addr memaddr : Z) (buf : pyval)
| I2C_readfrom_mem (addr memaddr nbytes : Z)
| I2C_readfrom_mem_into (addr memaddr : Z) (buf : pyval)
| I2C_readfrom (addr nbytes : Z)
| I2C_writeto (addr : Z) (buf : pyval)
| SPI_read (nbytes : Z)
| SPI_readinto (buf : pyval) (write : Z)
| SPI_write (buf : pyval)
| SPI_write_readinto (write_buf read_buf : pyval).

Record world : Type := mkWorld {
  level : pin -> bool;
  calls : list call;
  transport : list call -> call -> result pyval
}.

Definition M (A : Type) : Type := world -> world * result A.

Definition ret {A : Type} (a : A) : M A := fun w => (w, Ok a).

Definition raise {A : Type} (e : exn) : M A := fun w => (w, Raise e).

Definition bind {A B : Type} (m : M A) (k : A -> M B) : M B :=
  fun w =>
    match m w with
    | (w1, Ok a) => k a w1
    | (w1, Raise e) => (w1, Raise e)
    end.

Definition lift {A : Type} (r : result A) : M A := fun w => (w, r).

Notation "x <- m ;; k" := (bind m (fun x => k))
  (at level 61, m at next level, right associativity).
Notation "m ;; k" := (bind m (fun _ => k))
  (at level 61, right associativity).

(** [try: body finally: fin]. The handler runs on either exit of the
    body; an exception of the handler replaces the body's outcome. *)
Definition try_finally {A : Type} (body : M A) (fin : M unit) : M A :=
  fun w =>
    let (w1, r) := body w in
    match fin w1 with
    | (w2, Ok _) => (w2, r)
    | (w2, Raise e) => (w2, Raise e)
    end.

Definition log (c : call) (w : world) : world :=
  mkWorld (level w) (calls w ++ [c])%list (transport w).

Definition drive (p : pin) (v : bool) (w : world) : world :=
  mkWorld (fun q => if Nat.eqb q p then v else level w q) (calls w) (transport w).

Module Pin.

Definition low (p : pin) : M unit :=
  fun w => (drive p false (log (Pin_low p) w), Ok tt).

Definition high (p : pin) : M unit :=
  fun w => (drive p true (log (Pin_high p) w), Ok tt).

Definition value (p : pin) (v : bool) : M unit :=
  fun w => (drive p v (log (Pin_value p v) w), Ok tt).

End Pin.

(** A method call on the bus object: recorded, then answered by the
    transport. *)
Definition bus_call (c : call) : M pyval :=
  fun w => (log c w, transport w (calls w) c).

(** ** bus_service.py *)

(** The four methods of [BusAdapter] that every adapter overrides.
    [Addr] is what [device_addr] is on the bus: a number on I2C, the
    chip-select pin on SPI. *)
Class BusAdapter (T Addr : Type) : Type := {
  read_register : T -> Addr -> Z -> Z -> M pyval;
  write_register : T -> Addr -> Z -> pyval -> Z -> string -> M pyval;
  read : T -> Addr -> Z -> M pyval;
  write : T -> Addr -> pyval -> M pyval
}.

(** The base class itself: every method raises. *)
Module BusAdapterBase.

Inductive t : Type := mk.

Definition read_register (self : t) (device_addr reg_addr bytes_count : Z) : M pyval :=
  raise NotImplementedError.

Definition write_register (self : t) (device_addr reg_addr : Z) (value : pyval)
    (bytes_count : Z) (byte_order : string) : M pyval :=
  raise NotImplementedError.

Definition read (self : t) (device_addr n_bytes : Z) : M pyval :=
  raise NotImplementedError.

Definition write (self : t) (device_addr : Z) (buf : pyval) : M pyval :=
  raise NotImplementedError.

End BusAdapterBase.

Module I2cAdapter.

(** The adapter holds its bus and nothing else. *)
Inductive t : Type := mk.

Definition write_register (self : t) (device_addr reg_addr : Z) (value : pyval)
    (bytes_count : Z) (byte_order : string) : M pyval :=
  let buf := VNone in
  buf <- match isinstance_int value with
         | Some n => b <- lift (Py.to_bytes n bytes_count byte_order) ;; ret (VBytes b)
         | None => ret buf
         end ;;
  let buf := if isinstance_bytes value then value else buf in
  bus_call (I2C_writeto_mem device_addr reg_addr buf).

Definition read_register (self : t) (device_addr reg_addr bytes_count : Z) : M pyval :=
  bus_call (I2C_readfrom_mem device_addr reg_addr bytes_count).

Definition read (self : t) (device_addr n_bytes : Z) : M pyval :=
  bus_call (I2C_readfrom device_addr n_bytes).


Definition write (self : t) (device_addr : Z) (buf : pyval) : M pyval :=
  bus_call (I2C_writeto device_addr buf).


End I2cAdapter.

Module SpiAdapter.

Record t : Type := mk {
  data_mode_pin : option pin;
  use_data_mode_pin : bool;
  data_packet : bool
}.

Definition __init__ (data_mode : option pin) : t := mk data_mode false false.

Definition read_register (self : t) (device_addr : pin) (reg_addr bytes_count : Z) : M pyval :=
  raise NotImplementedError.

Definition write_register (self : t) (device_addr : pin) (reg_addr : Z) (value : pyval)
    (bytes_count : Z) (byte_order : string) : M pyval :=
  raise NotImplementedError.

Definition read (self : t) (device_addr : pin) (n_bytes : Z) : M pyval :=
  try_finally
    (Pin.low device_addr ;;
     bus_call (SPI_read n_bytes))
    (Pin.high device_addr).

Definition readinto (self : t) (device_addr : pin) (buf : pyval) : M pyval :=
  try_finally
    (Pin.low device_addr ;;
     bus_call (SPI_readinto buf 0))
    (Pin.high device_addr).

(** [if self.use_data_mode_pin and self.data_mode_pin:
       self.data_mode_pin.value(self.data_packet)] *)
Definition signal_data_mode (self : t) : M unit :=
  match use_data_mode_pin self, data_mode_pin self with
  | true, Some dm => Pin.value dm (data_packet self)
  | _, _ => ret tt
  end.

Definition write (self : t) (device_addr : pin) (buf : pyval) : M pyval :=
  try_finally
    (Pin.low device_addr ;;
     signal_data_mode self ;;
     bus_call (SPI_write buf))
    (Pin.high device_addr).

Definition write_and_read (self : t) (device_addr : pin) (wr_buf rd_buf : pyval) : M pyval :=
  try_finally
    (Pin.low device_addr ;;
     signal_data_mode self ;;
     bus_call (SPI_write_readinto wr_buf rd_buf))
    (Pin.high device_addr).

End SpiAdapter.

#[export] Instance BusAdapterBase_adapter : BusAdapter BusAdapterBase.t Z := {
  read_register := BusAdapterBase.read_register;
  write_register := BusAdapterBase.write_register;
  read := BusAdapterBase.read;
  write := BusAdapterBase.write
}.

#[export] Instance I2cAdapter_adapter : BusAdapter I2cAdapter.t Z := {
  read_register := I2cAdapter.read_register;
  write_register := I2cAdapter.write_register;
  read := I2cAdapter.read;
  write := I2cAdapter.write
}.

#[export] Instance SpiAdapter_adapter : BusAdapter SpiAdapter.t pin := {
  read_register := SpiAdapter.read_register;
  write_register := SpiAdapter.write_register;
  read := SpiAdapter.read;
  write := SpiAdapter.write
}.

(** ** base_sensor.py *)

Module Device.

Section WithAdapter.

Context {T Addr : Type} `{BusAdapter T Addr}.

Record t : Type := mk {
  adapter : T;
  address : Addr;
  big_byte_order : bool;
  msb_first : bool
}.

Definition __init__ (adapter : T) (address : Addr) (big_byte_order : bool) : t :=
  mk adapter address big_byte_order true.

Definition is_big_byteorder (self : t) : bool := big_byte_order self.

Definition _get_byteorder_as_str (self : t) : string * string :=
  if is_big_byteorder self then ("big", ">") else ("little", "<").

(** [struct.unpack(format, buffer)] is the [struct] module's. *)
Variable struct_unpack : string -> pyval -> result (list pyval).

Definition unpack (self : t) (fmt_char : string) (source : pyval)
    (redefine_byte_order : option string) : result (list pyval) :=
  if String.eqb fmt_char "" then
    Raise (ValueError ("Invalid length fmt_char parameter: "
                       ++ Py.str_int (Z.of_nat (String.length fmt_char))))
  else
    let bo := snd (_get_byteorder_as_str self) in
    rbind (match redefine_byte_order with
           | Some r => Py.str_first r
           | None => Ok bo
           end) (fun bo =>
    struct_unpack (bo ++ fmt_char) source).

End WithAdapter.

Arguments t : clear implicits.

End Device.

Module DeviceEx.

Section WithAdapter.

Context {T Addr : Type} `{BusAdapter T Addr}.

Definition read_reg (self : Device.t T Addr) (reg_addr bytes_count : Z) : M pyval :=
  read_register (Device.adapter self) (Device.address self) reg_addr bytes_count.

Definition write_reg (self : Device.t T Addr) (reg_addr : Z) (value : pyval)
    (bytes_count : Z) : M pyval :=
  let byte_order := fst (Device._get_byteorder_as_str self) in
  write_register (Device.adapter self) (Device.address self) reg_addr value
    bytes_count byte_order.

Definition read (self : Device.t T Addr) (n_bytes : Z) : M pyval :=
  read (Device.adapter self) (Device.address self) n_bytes.

Definition write (self : Device.t T Addr) (buf : pyval) : M pyval :=
  write (Device.adapter self) (Device.address self) buf.

End WithAdapter.

End DeviceEx.

(** ** Transactions and test doubles *)

(** The four bus transactions of [SpiAdapter]. *)
Inductive transaction : Type :=
| Tx_write (buf : pyval)
| Tx_write_and_read (wr_buf rd_buf : pyval)
| Tx_read (n_bytes : Z)
| Tx_readinto (buf : pyval).

Definition run (self : SpiAdapter.t) (device_addr : pin) (tx : transaction) : M pyval :=
  match tx with
  | Tx_write buf => SpiAdapter.write self device_addr buf
  | Tx_write_and_read wr_buf rd_buf => SpiAdapter.write_and_read self device_addr wr_buf rd_buf
  | Tx_read n_bytes => SpiAdapter.read self device_addr n_bytes
  | Tx_readinto buf => SpiAdapter.readinto self device_addr buf
  end.

(** The method of the bus a transaction calls. *)
Definition bus_operation (tx : transaction) : call :=
  match tx with
  | Tx_write buf => SPI_write buf
  | Tx_write_and_read wr_buf rd_buf => SPI_write_readinto wr_buf rd_buf
  | Tx_read n_bytes => SPI_read n_bytes
  | Tx_readinto buf => SPI_readinto buf 0
  end.

(** The data/command signalling a transaction does between selecting
    the chip and calling the bus: the two writing transactions, when the
    adapter uses a data-mode pin and has one. *)
Definition data_mode_calls (self : SpiAdapter.t) (tx : transaction) : list call :=
  match tx with
  | Tx_write _ | Tx_write_and_read _ _ =>
      match SpiAdapter.use_data_mode_pin self, SpiAdapter.data_mode_pin self with
      | true, Some dm => [Pin_value dm (SpiAdapter.data_packet self)]
      | _, _ => []
      end
  | Tx_read _ | Tx_readinto _ => []
  end.

(** A board at rest: every pin high, nothing called yet. *)
Definition idle (t : list call -> call -> result pyval) : world :=
  mkWorld (fun _ => true) [] t.

(** A transport that accepts every call. *)
Definition accepting : list call -> call -> result pyval :=
  fun _ _ => Ok VNone.

(** A transport that fails every call with [EIO]. *)
Definition failing : list call -> call -> result pyval :=
  fun _ _ => Raise (OSError 5).

(** A transport that refuses a full-duplex transfer over buffers of
    unequal lengths, as [machine.SPI.write_readinto] does. *)
Definition strict : list call -> call -> result pyval :=
  fun _ c =>
    match c with
    | SPI_write_readinto wr rd =>
        match py_len wr, py_len rd with
        | Some n, Some m =>
            if Nat.eqb n m then Ok VNone
            else Raise (ValueError "buffers must be the same length")
        | _, _ => Raise (TypeError "object with buffer protocol required")
        end
    | _ => Ok VNone
    end.

(** A [struct.unpack] that hands back the format it was given. *)
Definition echo_format : string -> pyval -> result (list pyval) :=
  fun format _ => Ok [VStr format].

(** ** base_sensor.py: the module's functions *)

Module base_sensor.

(** [value in valid_range] over a container of integers (a [range], a
    tuple, a list): some element equals [value]. *)
Definition contains (valid_range : list Z) (value : Z) : bool :=
  existsb (Z.eqb value) valid_range.

Definition check_value (value : option Z) (valid_range : list Z)
    (error_msg : string) : result (option Z) :=
  match value with
  | None => Ok value
  | Some v =>
      if negb (contains valid_range v) then Raise (ValueError error_msg)
      else Ok value
  end.

(** [element is not None]. *)
Definition is_not_None (element : pyval) : bool :=
  match element with
  | VNone => false
  | _ => true
  end.

(** [_all_none( *args )]: the loop returns [False] at the first argument
    that is not [None]. *)
Fixpoint _all_none (args : list pyval) : bool :=
  match args with
  | [] => true
  | element :: rest => if is_not_None element then false else _all_none rest
  end.

End base_sensor.

(** ** Reading pin levels off the calls *)



(** The world once a transaction has signalled data or command. *)
Definition after_data_mode (self : SpiAdapter.t) (tx : transaction) (w : world) : world :=
  match tx with
  | Tx_write _ | Tx_write_and_read _ _ =>
      match SpiAdapter.use_data_mode_pin self, SpiAdapter.data_mode_pin self with
      | true, Some dm =>
          drive dm (SpiAdapter.data_packet self)
            (log (Pin_value dm (SpiAdapter.data_packet self)) w)
      | _, _ => w
      end
  | Tx_read _ | Tx_readinto _ => w
  end.




(** * Properties *)

(** ** Bit masks *)

Lemma range_nil (a b : Z) : b <= a -> Py.range a b = [].
Proof.
  intros Hab. unfold Py.range.
  replace (Z.to_nat (b - a)) with O by lia. reflexivity.
Qed.

Lemma range_cons (a b : Z) : a < b -> Py.range a b = a :: Py.range (a + 1) b.
Proof.
  intros Hab. unfold Py.range.
  replace (Z.to_nat (b - a)) with (S (Z.to_nat (b - (a + 1)))) by lia.
  cbn [seq map]. f_equal; [lia|].
  rewrite <- seq_shift, map_map.
  apply map_ext. intros k. lia.
Qed.

(** Bit [i] of the block of ones between [lo] and [hi]. *)
Lemma ones_block_testbit (lo hi i : Z) :
  0 <= lo -> lo <= hi + 1 ->
  Z.testbit (Z.shiftl (Z.ones (hi + 1 - lo)) lo) i = (lo <=? i) && (i <=? hi).
Proof.
  intros Hlo Hhi.
  destruct (Z.ltb_spec i 0) as [Hneg|Hpos].
  - rewrite Z.testbit_neg_r by assumption.
    symmetry. apply andb_false_iff. left. apply Z.leb_gt. lia.
  - rewrite Z.shiftl_spec, Z.testbit_ones by lia.
    destruct (Z.leb_spec lo i), (Z.leb_spec 0 (i - lo)),
             (Z.ltb_spec (i - lo) (hi + 1 - lo)), (Z.leb_spec i hi);
      try reflexivity; lia.
Qed.

Lemma ones_block_closed (lo hi : Z) :
  0 <= lo -> lo <= hi + 1 ->
  Z.shiftl (Z.ones (hi + 1 - lo)) lo = 2 ^ (hi + 1) - 2 ^ lo.
Proof.
  intros Hlo Hhi.
  rewrite Z.shiftl_mul_pow2, Z.ones_equiv by assumption.
  unfold Z.pred. rewrite Z.mul_add_distr_r, <- Z.pow_add_r by lia.
  replace (hi + 1 - lo + lo) with (hi + 1) by lia. lia.
Qed.

Lemma mask_testbit (lo hi i : Z) :
  0 <= lo -> lo <= hi + 1 ->
  Z.testbit (2 ^ (hi + 1) - 2 ^ lo) i = (lo <=? i) && (i <=? hi).
Proof.
  intros Hlo Hhi. rewrite <- ones_block_closed by assumption.
  now apply ones_block_testbit.
Qed.

(** The loop of [_bitmask], started at [a] with [n] values to go. *)
Lemma bitmask_loop_range (n : nat) :
  forall a res, 0 <= a ->
    BitField.bitmask_loop (Py.range a (a + Z.of_nat n)) res
    = Ok (Z.lor res (Z.shiftl (Z.ones (Z.of_nat n)) a)).
Proof.
  induction n as [|n IH]; intros a res Ha.
  - rewrite range_nil by lia. cbn [BitField.bitmask_loop].
    change (Z.ones (Z.of_nat 0)) with 0.
    now rewrite Z.shiftl_0_l, Z.lor_0_r.
  - rewrite range_cons by lia. cbn [BitField.bitmask_loop].
    unfold Py.lshift. destruct (Z.ltb_spec a 0) as [|_]; [lia|].
    cbn [rbind].
    replace (a + Z.of_nat (S n)) with (a + 1 + Z.of_nat n) by lia.
    rewrite IH by lia. f_equal.
    apply Z.bits_inj'. intros i Hi.
    rewrite !Z.lor_spec, !Z.shiftl_spec, !Z.testbit_ones by lia.
    rewrite <- orb_assoc. f_equal.
    change 1 with (2 ^ 0) at 1. rewrite Z.pow2_bits_eqb by lia.
    destruct (Z.eqb_spec 0 (i - a)), (Z.leb_spec 0 (i - (a + 1))),
             (Z.ltb_spec (i - (a + 1)) (Z.of_nat n)), (Z.leb_spec 0 (i - a)),
             (Z.ltb_spec (i - a) (Z.of_nat (S n)));
      try reflexivity; lia.
Qed.

Lemma bitmask_ok (start stop : Z) :
  0 <= start <= stop ->
  BitField._bitmask start stop = Ok (2 ^ (stop + 1) - 2 ^ start).
Proof.
  intros [H0 Hle]. unfold BitField._bitmask.
  replace (1 + stop) with (start + Z.of_nat (Z.to_nat (stop + 1 - start))) by lia.
  rewrite bitmask_loop_range by assumption.
  rewrite Z.lor_0_l, Z2Nat.id by lia.
  now rewrite ones_block_closed by lia.
Qed.

Lemma bitmask_empty (start stop : Z) :
  stop < start -> BitField._bitmask start stop = Ok 0.
Proof.
  intros Hlt. unfold BitField._bitmask. now rewrite range_nil by lia.
Qed.

Lemma bitmask_negative (start stop : Z) :
  start < 0 -> start <= stop ->
  BitField._bitmask start stop = Raise (ValueError "negative shift count").
Proof.
  intros Hneg Hle. unfold BitField._bitmask.
  rewrite range_cons by lia. cbn [BitField.bitmask_loop].
  unfold Py.lshift. destruct (Z.ltb_spec start 0); [reflexivity|lia].
Qed.

(** What a successful construction tells about its arguments and its
    result. *)
Lemma init_ok_inv (alias : string) (start stop : Z) (bf : BitField.t) :
  BitField.__init__ alias start stop = Ok bf ->
  0 <= start <= stop
  /\ bf = BitField.mk alias start stop (2 ^ (stop + 1) - 2 ^ start).
Proof.
  unfold BitField.__init__. intros Hinit.
  destruct (Z.gtb_spec start stop) as [|Hle]; [discriminate|].
  destruct (Z.lt_ge_cases start 0) as [Hneg|Hpos].
  - rewrite bitmask_negative in Hinit by assumption. discriminate.
  - rewrite bitmask_ok in Hinit by lia. cbn [rbind] in Hinit.
    injection Hinit as <-. split; [lia|reflexivity].
Qed.

Lemma init_ok (alias : string) (start stop : Z) :
  0 <= start <= stop ->
  BitField.__init__ alias start stop
  = Ok (BitField.mk alias start stop (2 ^ (stop + 1) - 2 ^ start)).
Proof.
  intros Hr. unfold BitField.__init__.
  destruct (Z.gtb_spec start stop); [lia|].
  now rewrite bitmask_ok.
Qed.

(** ** Reading and writing a field *)

Lemma put_ok (alias : string) (start stop source value : Z) :
  0 <= start ->
  BitField.put (BitField.mk alias start stop (2 ^ (stop + 1) - 2 ^ start)) source value
  = Ok (Z.lor (Z.land source (Z.lnot (2 ^ (stop + 1) - 2 ^ start)))
              (Z.land (Z.shiftl value start) (2 ^ (stop + 1) - 2 ^ start))).
Proof.
  intros Hs. unfold BitField.put, Py.lshift. cbn [BitField.start BitField.bitmask].
  destruct (Z.ltb_spec start 0); [lia|reflexivity].
Qed.

Lemma get_ok (alias : string) (start stop source : Z) :
  0 <= start ->
  BitField.get (BitField.mk alias start stop (2 ^ (stop + 1) - 2 ^ start)) source
  = Ok (Z.shiftr (Z.land source (2 ^ (stop + 1) - 2 ^ start)) start).
Proof.
  intros Hs. unfold BitField.get, Py.rshift. cbn [BitField.start BitField.bitmask].
  destruct (Z.ltb_spec start 0); [lia|reflexivity].
Qed.

(** Bit [i] of the value [put] returns: the bit of [value] inside the
    field, the bit of [source] outside. *)
Lemma put_testbit (start stop source value i : Z) :
  0 <= start <= stop -> 0 <= i ->
  Z.testbit (Z.lor (Z.land source (Z.lnot (2 ^ (stop + 1) - 2 ^ start)))
                   (Z.land (Z.shiftl value start) (2 ^ (stop + 1) - 2 ^ start))) i
  = if (start <=? i) && (i <=? stop) then Z.testbit value (i - start)
    else Z.testbit source i.
Proof.
  intros Hr Hi.
  rewrite Z.lor_spec, !Z.land_spec, Z.lnot_spec, Z.shiftl_spec by lia.
  rewrite mask_testbit by lia.
  destruct ((start <=? i) && (i <=? stop)); cbn [negb].
  - now rewrite andb_false_r, andb_true_r.
  - now rewrite andb_true_r, andb_false_r, orb_false_r.
Qed.

(** C2: for every constructed BitField (so [start <= stop]) and every
    [source] and [value], [put] returns, and [get] of what it returns is
    [value] masked to the field width, [value & (2^(stop-start+1) - 1)]:
    the bits of [value] above the width are dropped, not an error. *)
Theorem get_put_roundtrip (alias : string) (start stop : Z) (bf : BitField.t)
    (source value : Z) :
  BitField.__init__ alias start stop = Ok bf ->
  start <= stop
  /\ exists packed,
       BitField.put bf source value = Ok packed
       /\ BitField.get bf packed = Ok (Z.land value (2 ^ (stop - start + 1) - 1)).
Proof.
  intros Hinit. apply init_ok_inv in Hinit as [Hr ->].
  split; [lia|]. eexists. split; [apply put_ok; lia|].
  rewrite get_ok by lia. f_equal.
  apply Z.bits_inj'. intros i Hi.
  rewrite Z.shiftr_spec, !Z.land_spec by assumption.
  rewrite put_testbit, mask_testbit by lia.
  change (2 ^ (stop - start + 1) - 1) with (Z.pred (2 ^ (stop - start + 1))).
  rewrite <- Z.ones_equiv, Z.testbit_ones by lia.
  replace (i + start - start) with i by lia.
  destruct (Z.leb_spec start (i + start)), (Z.leb_spec (i + start) stop),
           (Z.leb_spec 0 i), (Z.ltb_spec i (stop - start + 1));
    cbn [andb]; try lia; try reflexivity;
    rewrite ?andb_true_r, ?andb_false_r; reflexivity.
Qed.

Lemma get_put_roundtrip_witness :
  0 <= 4
  /\ exists packed,
       BitField.put (BitField.mk "mode" 2 4 28) 0 5 = Ok packed
       /\ BitField.get (BitField.mk "mode" 2 4 28) packed = Ok (Z.land 5 (2 ^ (4 - 2 + 1) - 1)).
Proof.
  split; [lia|].
  exact (proj2 (get_put_roundtrip "mode" 2 4 (BitField.mk "mode" 2 4 28) 0 5 eq_refl)).
Defined.

(** C3: for every constructed BitField and every [source] and [value],
    [put] leaves the bits of [source] outside [start..stop] as they
    were: [put(source, value) & ~bitmask == source & ~bitmask]. *)
Theorem put_preserves_outside (alias : string) (start stop : Z) (bf : BitField.t)
    (source value : Z) :
  BitField.__init__ alias start stop = Ok bf ->
  exists packed,
    BitField.put bf source value = Ok packed
    /\ Z.land packed (Z.lnot (BitField.bitmask bf))
       = Z.land source (Z.lnot (BitField.bitmask bf))
    /\ forall i, i < start \/ stop < i -> Z.testbit packed i = Z.testbit source i.
Proof.
  intros Hinit. apply init_ok_inv in Hinit as [Hr ->].
  eexists. split; [apply put_ok; lia|]. cbn [BitField.bitmask]. split.
  - apply Z.bits_inj'. intros i Hi.
    rewrite !Z.land_spec, put_testbit, Z.lnot_spec, mask_testbit by lia.
    destruct ((start <=? i) && (i <=? stop)); cbn [negb].
    + now rewrite !andb_false_r.
    + reflexivity.
  - intros i Hout.
    destruct (Z.lt_ge_cases i 0) as [Hneg|Hpos].
    + now rewrite !Z.testbit_neg_r.
    + rewrite put_testbit by lia.
      destruct (Z.leb_spec start i), (Z.leb_spec i stop); cbn [andb];
        try reflexivity; lia.
Qed.

Lemma put_preserves_outside_witness :
  exists packed,
    BitField.put (BitField.mk "mode" 2 4 28) 0xC3 5 = Ok packed
    /\ Z.land packed (Z.lnot 28) = Z.land 0xC3 (Z.lnot 28)
    /\ forall i, i < 2 \/ 4 < i -> Z.testbit packed i = Z.testbit 0xC3 i.
Proof.
  exact (put_preserves_outside "mode" 2 4 (BitField.mk "mode" 2 4 28) 0xC3 5 eq_refl).
Defined.

(** ** Construction *)

(** C6, as the code has it: constructing a BitField raises InvalidRange
    (the [ValueError] of [__init__]) if and only if [start > stop]; it
    succeeds if and only if [0 <= start <= stop], and then stores
    [alias], [start] and [stop] unchanged; for [start <= stop] with a
    negative [start] the mask loop raises the [ValueError] of a negative
    shift count. Whatever the construction raises is a [ValueError]. *)
Theorem init_spec (alias : string) (start stop : Z) :
  (start > stop
   <-> BitField.__init__ alias start stop = Raise (BitField.InvalidRange start stop))
  /\ (0 <= start <= stop <-> exists bf, BitField.__init__ alias start stop = Ok bf)
  /\ (forall bf, BitField.__init__ alias start stop = Ok bf ->
        BitField.alias bf = alias /\ BitField.start bf = start /\ BitField.stop bf = stop)
  /\ (start <= stop -> start < 0 ->
        BitField.__init__ alias start stop = Raise (ValueError "negative shift count"))
  /\ (forall e, BitField.__init__ alias start stop = Raise e -> is_ValueError e = true).
Proof.
  assert (Hneg : start <= stop -> start < 0 ->
            BitField.__init__ alias start stop
            = Raise (ValueError "negative shift count")).
  { intros Hle Hlt. unfold BitField.__init__.
    destruct (Z.gtb_spec start stop); [lia|].
    now rewrite bitmask_negative. }
  assert (Hgt : start > stop ->
            BitField.__init__ alias start stop
            = Raise (BitField.InvalidRange start stop)).
  { intros Hlt. unfold BitField.__init__.
    destruct (Z.gtb_spec start stop); [reflexivity|lia]. }
  split; [|split; [|split; [|split]]].
  - split; [exact Hgt|]. intros Hraise.
    destruct (Z.lt_ge_cases stop start) as [|Hle]; [lia|].
    destruct (Z.lt_ge_cases start 0) as [Hlt|Hpos].
    + rewrite Hneg in Hraise by assumption.
      unfold BitField.InvalidRange in Hraise. cbn [String.append] in Hraise.
      discriminate.
    + rewrite init_ok in Hraise by lia. discriminate.
  - split.
    + intros Hr. eexists. now apply init_ok.
    + intros [bf Hinit]. now apply init_ok_inv in Hinit.
  - intros bf Hinit. apply init_ok_inv in Hinit as [_ ->].
    repeat split.
  - exact Hneg.
  - intros e Hraise.
    destruct (Z.lt_ge_cases stop start) as [Hlt|Hle].
    + rewrite Hgt in Hraise by lia. injection Hraise as <-. reflexivity.
    + destruct (Z.lt_ge_cases start 0) as [Hlt|Hpos].
      * rewrite Hneg in Hraise by assumption. injection Hraise as <-. reflexivity.
      * rewrite init_ok in Hraise by lia. discriminate.
Qed.

Lemma init_spec_witness :
  BitField.__init__ "mode" 5 3 = Raise (BitField.InvalidRange 5 3)
  /\ (exists bf, BitField.__init__ "mode" 2 4 = Ok bf)
  /\ BitField.__init__ "mode" (-1) 0 = Raise (ValueError "negative shift count").
Proof.
  split; [|split].
  - apply (proj1 (proj1 (init_spec "mode" 5 3))). lia.
  - apply (proj1 (proj1 (proj2 (init_spec "mode" 2 4)))). lia.
  - apply (proj1 (proj2 (proj2 (proj2 (init_spec "mode" (-1) 0))))); lia.
Defined.

(** C6 as stated fails: [start = -1 <= stop = 0], yet the construction
    raises. *)
Lemma init_negative_start_raises :
  -1 <= 0
  /\ BitField.__init__ "mode" (-1) 0 = Raise (ValueError "negative shift count")
  /\ ~ (forall alias start stop, start <= stop ->
          exists bf, BitField.__init__ alias start stop = Ok bf).
Proof.
  split; [lia|]. split; [reflexivity|].
  intros Hall. destruct (Hall "mode" (-1) 0 ltac:(lia)) as [bf Hbf].
  discriminate Hbf.
Qed.

(** C7, as the code has it: [_bitmask(start, stop)] does not fail for
    [start > stop], it returns 0 (the InvalidRange check is the
    constructor's, made before it calls [_bitmask]); for
    [0 <= start <= stop] it returns [2^(stop+1) - 2^start], the integer
    with exactly the bits [start..stop] set; and the mask stored in a
    constructed BitField is that value. *)
Theorem bitmask_spec (start stop : Z) :
  (start > stop -> BitField._bitmask start stop = Ok 0)
  /\ (0 <= start <= stop ->
        BitField._bitmask start stop = Ok (2 ^ (stop + 1) - 2 ^ start)
        /\ forall i, Z.testbit (2 ^ (stop + 1) - 2 ^ start) i
                     = (start <=? i) && (i <=? stop))
  /\ (forall alias bf, BitField.__init__ alias start stop = Ok bf ->
        BitField.bitmask bf = 2 ^ (stop + 1) - 2 ^ start
        /\ BitField._bitmask start stop = Ok (BitField.bitmask bf)).
Proof.
  split; [|split].
  - intros Hgt. apply bitmask_empty. lia.
  - intros Hr. split; [now apply bitmask_ok|].
    intros i. apply mask_testbit; lia.
  - intros alias bf Hinit. apply init_ok_inv in Hinit as [Hr ->].
    cbn [BitField.bitmask]. split; [reflexivity|now apply bitmask_ok].
Qed.

Lemma bitmask_spec_witness :
  BitField._bitmask 5 3 = Ok 0
  /\ BitField._bitmask 2 4 = Ok (2 ^ (4 + 1) - 2 ^ 2)
  /\ BitField.bitmask (BitField.mk "mode" 2 4 28) = 2 ^ (4 + 1) - 2 ^ 2.
Proof.
  split; [|split].
  - apply (proj1 (bitmask_spec 5 3)). lia.
  - apply (proj1 (proj2 (bitmask_spec 2 4))). lia.
  - exact (proj1 (proj2 (proj2 (bitmask_spec 2 4)) "mode" (BitField.mk "mode" 2 4 28) eq_refl)).
Defined.

(** C7 as stated fails: [_bitmask(5, 3)] returns 0, it raises nothing. *)
Lemma bitmask_reversed_range_returns_zero :
  5 > 3
  /\ BitField._bitmask 5 3 = Ok 0
  /\ forall e, BitField._bitmask 5 3 <> Raise e.
Proof.
  split; [lia|]. split; [reflexivity|]. intros e. discriminate.
Qed.

(** ** The chip-select discipline of SpiAdapter *)

(** C1: every SpiAdapter transaction (write, write_and_read, read,
    readinto) on the chip-select pin [cs] makes exactly these calls, in
    this order: [cs.low()], the data-mode signalling if any, the bus
    operation, [cs.high()]. Its outcome is the bus operation's, a raised
    exception included, and on either exit the pin is left high. *)
Theorem chip_select_released (self : SpiAdapter.t) (cs : pin) (tx : transaction)
    (w : world) :
  calls (fst (run self cs tx w))
  = (calls w ++ [Pin_low cs] ++ data_mode_calls self tx
     ++ [bus_operation tx; Pin_high cs])%list
  /\ snd (run self cs tx w)
     = transport w (calls w ++ [Pin_low cs] ++ data_mode_calls self tx)%list
         (bus_operation tx)
  /\ level (fst (run self cs tx w)) cs = true
  /\ (forall e,
        transport w (calls w ++ [Pin_low cs] ++ data_mode_calls self tx)%list
          (bus_operation tx) = Raise e ->
        snd (run self cs tx w) = Raise e
        /\ level (fst (run self cs tx w)) cs = true
        /\ last (calls (fst (run self cs tx w))) (Pin_low cs) = Pin_high cs).
Proof.
  assert (Hmain :
    calls (fst (run self cs tx w))
    = (calls w ++ [Pin_low cs] ++ data_mode_calls self tx
       ++ [bus_operation tx; Pin_high cs])%list
    /\ snd (run self cs tx w)
       = transport w (calls w ++ [Pin_low cs] ++ data_mode_calls self tx)%list
           (bus_operation tx)
    /\ level (fst (run self cs tx w)) cs = true).
  { destruct self as [[dm|] [|] packet]; destruct tx;
      cbn [run bus_operation data_mode_calls SpiAdapter.use_data_mode_pin
           SpiAdapter.data_mode_pin SpiAdapter.data_packet];
      unfold SpiAdapter.write, SpiAdapter.write_and_read, SpiAdapter.read,
             SpiAdapter.readinto, SpiAdapter.signal_data_mode,
             try_finally, bind, ret, Pin.low, Pin.high, Pin.value, bus_call;
      cbn [SpiAdapter.use_data_mode_pin SpiAdapter.data_mode_pin
           SpiAdapter.data_packet log drive calls level transport fst snd];
      rewrite <- ?app_assoc; cbn [app];
      match goal with
      | |- context [transport w ?h ?c] => destruct (transport w h c)
      end;
      cbn [fst snd calls level];
      rewrite ?Nat.eqb_refl; repeat split; reflexivity. }
  destruct Hmain as (Hcalls & Hres & Hlevel).
  repeat split; try assumption.
  - rewrite Hres. assumption.
  - rewrite Hcalls, !app_assoc.
    change [bus_operation tx; Pin_high cs]
      with ([bus_operation tx] ++ [Pin_high cs])%list.
    rewrite app_assoc. apply last_last.
Qed.

Lemma chip_select_released_witness :
  snd (run (SpiAdapter.mk (Some 7%nat) true true) 3%nat
         (Tx_write_and_read (VBytes [x01]) (VByteArray [x00])) (idle failing))
  = Raise (OSError 5)
  /\ level (fst (run (SpiAdapter.mk (Some 7%nat) true true) 3%nat
                   (Tx_write_and_read (VBytes [x01]) (VByteArray [x00])) (idle failing)))
       3%nat = true
  /\ last (calls (fst (run (SpiAdapter.mk (Some 7%nat) true true) 3%nat
                         (Tx_write_and_read (VBytes [x01]) (VByteArray [x00]))
                         (idle failing))))
       (Pin_low 3%nat) = Pin_high 3%nat.
Proof.
  exact (proj2 (proj2 (proj2
    (chip_select_released (SpiAdapter.mk (Some 7%nat) true true) 3%nat
       (Tx_write_and_read (VBytes [x01]) (VByteArray [x00])) (idle failing))))
    (OSError 5) eq_refl).
Defined.

(** C8: [SpiAdapter.read_register] and [SpiAdapter.write_register]
    raise [NotImplementedError] whatever their arguments, and leave the
    world as it was: no pin is driven and the bus is not called. The
    same holds through the [DeviceEx] facade bound to an SpiAdapter. *)
Theorem spi_register_access_unsupported (self : SpiAdapter.t) (cs : pin)
    (reg_addr bytes_count : Z) (value : pyval) (byte_order : string)
    (big msb : bool) (w : world) :
  SpiAdapter.read_register self cs reg_addr bytes_count w
  = (w, Raise NotImplementedError)
  /\ SpiAdapter.write_register self cs reg_addr value bytes_count byte_order w
     = (w, Raise NotImplementedError)
  /\ DeviceEx.read_reg (Device.mk self cs big msb) reg_addr bytes_count w
     = (w, Raise NotImplementedError)
  /\ DeviceEx.write_reg (Device.mk self cs big msb) reg_addr value bytes_count w
     = (w, Raise NotImplementedError).
Proof. repeat split. Qed.

(** ** Full-duplex transfers *)

(** A transaction, step by step: select, signal, call the bus, release. *)
Lemma run_unfold (self : SpiAdapter.t) (cs : pin) (tx : transaction) (w : world) :
  run self cs tx w
  = (drive cs true
       (log (Pin_high cs)
          (log (bus_operation tx)
             (after_data_mode self tx (drive cs false (log (Pin_low cs) w))))),
     transport w (calls w ++ [Pin_low cs] ++ data_mode_calls self tx)%list
       (bus_operation tx)).
Proof.
  destruct self as [[dm|] [|] packet]; destruct tx;
    cbn [run bus_operation data_mode_calls after_data_mode
         SpiAdapter.use_data_mode_pin SpiAdapter.data_mode_pin
         SpiAdapter.data_packet];
    unfold SpiAdapter.write, SpiAdapter.write_and_read, SpiAdapter.read,
           SpiAdapter.readinto, SpiAdapter.signal_data_mode,
           try_finally, bind, ret, Pin.low, Pin.high, Pin.value, bus_call;
    cbn [SpiAdapter.use_data_mode_pin SpiAdapter.data_mode_pin
         SpiAdapter.data_packet log drive calls level transport fst snd];
    rewrite <- ?app_assoc; cbn [app];
    match goal with
    | |- context [transport w ?h ?c] => destruct (transport w h c)
    end;
    reflexivity.
Qed.

(** C5, as the code has it: [SpiAdapter.write_and_read] makes no length
    check of its own. It hands both buffers to the transport's
    [write_readinto] and its outcome is the transport's: over a
    transport that refuses buffers of unequal lengths the call fails
    with the transport's error, chip-select released. *)
Theorem write_and_read_outcome_is_transports (self : SpiAdapter.t) (cs : pin)
    (wr_buf rd_buf : pyval) (n m : nat) (w : world) (e : exn) :
  (forall history wr rd n' m',
     py_len wr = Some n' -> py_len rd = Some m' -> n' <> m' ->
     transport w history (SPI_write_readinto wr rd) = Raise e) ->
  py_len wr_buf = Some n -> py_len rd_buf = Some m -> n <> m ->
  snd (SpiAdapter.write_and_read self cs wr_buf rd_buf w) = Raise e
  /\ level (fst (SpiAdapter.write_and_read self cs wr_buf rd_buf w)) cs = true
  /\ In (SPI_write_readinto wr_buf rd_buf)
       (calls (fst (SpiAdapter.write_and_read self cs wr_buf rd_buf w))).
Proof.
  intros Hstrict Hwr Hrd Hlen.
  pose proof (run_unfold self cs (Tx_write_and_read wr_buf rd_buf) w) as Hrun.
  cbn [run bus_operation] in Hrun. rewrite Hrun. cbn [fst snd].
  repeat split.
  - now apply (Hstrict _ _ _ n m).
  - cbn [drive level]. now rewrite Nat.eqb_refl.
  - cbn [drive log calls]. rewrite !in_app_iff. left. right. left. reflexivity.
Qed.

Lemma write_and_read_outcome_is_transports_witness :
  snd (SpiAdapter.write_and_read (SpiAdapter.__init__ None) 3%nat
         (VBytes [x01]) (VByteArray [x00; x00]) (idle strict))
  = Raise (ValueError "buffers must be the same length")
  /\ level (fst (SpiAdapter.write_and_read (SpiAdapter.__init__ None) 3%nat
                   (VBytes [x01]) (VByteArray [x00; x00]) (idle strict))) 3%nat = true
  /\ In (SPI_write_readinto (VBytes [x01]) (VByteArray [x00; x00]))
       (calls (fst (SpiAdapter.write_and_read (SpiAdapter.__init__ None) 3%nat
                      (VBytes [x01]) (VByteArray [x00; x00]) (idle strict)))).
Proof.
  apply (write_and_read_outcome_is_transports (SpiAdapter.__init__ None) 3%nat
           (VBytes [x01]) (VByteArray [x00; x00]) 1%nat 2%nat (idle strict)
           (ValueError "buffers must be the same length")).
  - intros history wr rd n m Hwr Hrd Hlen. cbn [idle transport strict].
    rewrite Hwr, Hrd. destruct (Nat.eqb_spec n m); [contradiction|reflexivity].
  - reflexivity.
  - reflexivity.
  - discriminate.
Defined.

(** C5 as stated fails: over a transport that accepts the transfer,
    buffers of lengths 1 and 2 go through and the call returns. *)
Lemma write_and_read_unequal_lengths_accepted :
  py_len (VBytes [x01]) <> py_len (VByteArray [x00; x00])
  /\ snd (SpiAdapter.write_and_read (SpiAdapter.__init__ None) 3%nat
            (VBytes [x01]) (VByteArray [x00; x00]) (idle accepting))
     = Ok VNone
  /\ calls (fst (SpiAdapter.write_and_read (SpiAdapter.__init__ None) 3%nat
                   (VBytes [x01]) (VByteArray [x00; x00]) (idle accepting)))
     = [Pin_low 3%nat;
        SPI_write_readinto (VBytes [x01]) (VByteArray [x00; x00]);
        Pin_high 3%nat]
  /\ forall e,
       snd (SpiAdapter.write_and_read (SpiAdapter.__init__ None) 3%nat
              (VBytes [x01]) (VByteArray [x00; x00]) (idle accepting))
       <> Raise e.
Proof.
  split; [discriminate|]. split; [reflexivity|]. split; [reflexivity|].
  intros e. discriminate.
Qed.

(** ** Encoding an integer for a register write *)

Lemma Z_of_byte_of_Z (z : Z) : Py.Z_of_byte (Py.byte_of_Z z) = z mod 256.
Proof.
  unfold Py.Z_of_byte, Py.byte_of_Z.
  assert (Hb : 0 <= z mod 256 < 256) by (apply Z.mod_pos_bound; lia).
  destruct (Byte.of_N (Z.to_N (z mod 256))) as [b|] eqn:Hof.
  - apply Byte.to_of_N in Hof. rewrite Hof. lia.
  - apply Byte.of_N_None_iff in Hof. lia.
Qed.

Lemma length_le_bytes (n : nat) : forall v, List.length (Py.le_bytes n v) = n.
Proof.
  induction n as [|n IH]; intros v; cbn [Py.le_bytes List.length].
  - reflexivity.
  - now rewrite IH.
Qed.

Lemma le_value_le_bytes (n : nat) :
  forall v, 0 <= v < 256 ^ Z.of_nat n -> Py.le_value (Py.le_bytes n v) = v.
Proof.
  induction n as [|n IH]; intros v Hv; cbn [Py.le_bytes Py.le_value].
  - change (256 ^ Z.of_nat 0) with 1 in Hv. lia.
  - rewrite Z_of_byte_of_Z, IH.
    + pose proof (Z.div_mod v 256). lia.
    + rewrite Nat2Z.inj_succ, Z.pow_succ_r in Hv by lia.
      split; [apply Z.div_pos; lia|].
      apply Z.div_lt_upper_bound; lia.
Qed.

(** [to_bytes] on a value that fits: exactly [count] bytes, which read
    back in the same byte order give the value. *)
Lemma to_bytes_fits (v count : Z) (order : string) :
  order = "big" \/ order = "little" ->
  0 <= v < 256 ^ count ->
  exists buf,
    Py.to_bytes v count order = Ok buf
    /\ Z.of_nat (List.length buf) = count
    /\ Py.from_bytes buf order = v.
Proof.
  intros Horder Hv.
  assert (Hcount : 0 <= count).
  { destruct (Z.lt_ge_cases count 0) as [Hneg|]; [|assumption].
    rewrite Z.pow_neg_r in Hv by assumption. lia. }
  unfold Py.to_bytes, Py.from_bytes.
  destruct (Z.ltb_spec count 0); [lia|].
  destruct (Z.ltb_spec v 0); [lia|].
  destruct (Z.leb_spec (256 ^ count) v); [lia|].
  assert (Hback : Py.le_value (Py.le_bytes (Z.to_nat count) v) = v).
  { apply le_value_le_bytes. rewrite Z2Nat.id; assumption. }
  destruct Horder as [-> | ->]; cbn [String.eqb Ascii.eqb Bool.eqb orb negb];
    eexists; (split; [reflexivity|]).
  - rewrite length_rev, length_le_bytes, rev_involutive. split; [lia|assumption].
  - rewrite length_le_bytes. split; [lia|assumption].
Qed.

(** C4: with an integer [value] that fits, [I2cAdapter.write_register]
    encodes it into exactly [bytes_count] bytes in the given byte order
    ("big" or "little") and calls the memory-write primitive with that
    buffer (for any integer the buffer is what [int.to_bytes] returns,
    and what it raises is raised before the bus is called); a [bytes]
    or [bytearray] value goes to the primitive as it is, whatever
    [bytes_count] and [byte_order] are; and
    [write_register(0x42, 0x10, 300, 2, "big")] calls the primitive with
    [b'\x01\x2c']. *)
Theorem i2c_write_register_encodes (self : I2cAdapter.t) (device_addr reg_addr : Z)
    (w : world) :
  (forall value n bytes_count byte_order,
     isinstance_int value = Some n ->
     byte_order = "big" \/ byte_order = "little" ->
     0 <= n < 256 ^ bytes_count ->
     exists buf,
       Py.to_bytes n bytes_count byte_order = Ok buf
       /\ Z.of_nat (List.length buf) = bytes_count
       /\ Py.from_bytes buf byte_order = n
       /\ I2cAdapter.write_register self device_addr reg_addr value bytes_count
            byte_order w
          = bus_call (I2C_writeto_mem device_addr reg_addr (VBytes buf)) w)
  /\ (forall value n bytes_count byte_order,
        isinstance_int value = Some n ->
        I2cAdapter.write_register self device_addr reg_addr value bytes_count
          byte_order w
        = (buf <- lift (Py.to_bytes n bytes_count byte_order) ;;
           bus_call (I2C_writeto_mem device_addr reg_addr (VBytes buf))) w)
  /\ (forall value bytes_count byte_order,
        isinstance_bytes value = true ->
        I2cAdapter.write_register self device_addr reg_addr value bytes_count
          byte_order w
        = bus_call (I2C_writeto_mem device_addr reg_addr value) w)
  /\ I2cAdapter.write_register self 0x42 0x10 (VInt 300) 2 "big" w
     = bus_call (I2C_writeto_mem 0x42 0x10 (VBytes [x01; x2c])) w.
Proof.
  split; [|split; [|split]].
  2:{ intros value n bytes_count byte_order Hint.
      unfold I2cAdapter.write_register. rewrite Hint. unfold bind, lift, ret.
      destruct (Py.to_bytes n bytes_count byte_order);
        destruct value; try discriminate; reflexivity. }
  - intros value n bytes_count byte_order Hint Horder Hfits.
    destruct (to_bytes_fits n bytes_count byte_order Horder Hfits)
      as (buf & Hto & Hlen & Hback).
    exists buf. repeat split; try assumption.
    unfold I2cAdapter.write_register. rewrite Hint.
    unfold bind, lift, ret. rewrite Hto.
    destruct value; try discriminate; reflexivity.
  - intros value bytes_count byte_order Hbytes.
    unfold I2cAdapter.write_register.
    destruct value; try discriminate; reflexivity.
  - reflexivity.
Qed.

Lemma i2c_write_register_encodes_witness :
  exists buf,
    Py.to_bytes 300 2 "little" = Ok buf
    /\ Z.of_nat (List.length buf) = 2
    /\ Py.from_bytes buf "little" = 300
    /\ I2cAdapter.write_register I2cAdapter.mk 0x42 0x10 (VInt 300) 2 "little"
         (idle accepting)
       = bus_call (I2C_writeto_mem 0x42 0x10 (VBytes buf)) (idle accepting).
Proof.
  apply (proj1 (i2c_write_register_encodes I2cAdapter.mk 0x42 0x10 (idle accepting))
           (VInt 300) 300 2 "little").
  - reflexivity.
  - right. reflexivity.
  - cbn. lia.
Defined.

(** C9: a [value] that is neither an [int] nor a [bytes]/[bytearray]
    falls through both [isinstance] tests: [I2cAdapter.write_register]
    raises nothing itself, it calls the memory-write primitive with
    [None] as the buffer and its outcome is the primitive's. *)
Theorem i2c_write_register_unchecked_value (self : I2cAdapter.t)
    (device_addr reg_addr : Z) (value : pyval) (bytes_count : Z)
    (byte_order : string) (w : world) :
  isinstance_int value = None ->
  isinstance_bytes value = false ->
  calls (fst (I2cAdapter.write_register self device_addr reg_addr value
                bytes_count byte_order w))
  = (calls w ++ [I2C_writeto_mem device_addr reg_addr VNone])%list
  /\ snd (I2cAdapter.write_register self device_addr reg_addr value
            bytes_count byte_order w)
     = transport w (calls w) (I2C_writeto_mem device_addr reg_addr VNone).
Proof.
  intros Hint Hbytes. unfold I2cAdapter.write_register.
  rewrite Hint, Hbytes. split; reflexivity.
Qed.

Lemma i2c_write_register_unchecked_value_witness :
  calls (fst (I2cAdapter.write_register I2cAdapter.mk 0x42 0x10 (VStr "on")
                1 "big" (idle accepting)))
  = ([] ++ [I2C_writeto_mem 0x42 0x10 VNone])%list
  /\ snd (I2cAdapter.write_register I2cAdapter.mk 0x42 0x10 (VStr "on")
            1 "big" (idle accepting))
     = accepting [] (I2C_writeto_mem 0x42 0x10 VNone).
Proof.
  exact (i2c_write_register_unchecked_value I2cAdapter.mk 0x42 0x10 (VStr "on")
           1 "big" (idle accepting) eq_refl eq_refl).
Defined.

(** ** The byte-order prefix of Device.unpack *)

(** C10: with a [redefine_byte_order] that is not [None],
    [Device.unpack] takes its first character alone as the [struct]
    byte-order prefix: the tokens ["big"] and ["little"] give the
    formats ['b' + fmt_char] and ['l' + fmt_char], not the ['>'] and
    ['<'] that the device's own byte order gives when there is no
    override. *)
Theorem unpack_override_first_char {T Addr : Type}
    (struct_unpack : string -> pyval -> result (list pyval))
    (self : Device.t T Addr) (fmt_char : string) (source : pyval) :
  fmt_char <> "" ->
  (forall c rest,
     Device.unpack struct_unpack self fmt_char source (Some (String c rest))
     = struct_unpack (String c fmt_char) source)
  /\ Device.unpack struct_unpack self fmt_char source (Some "big")
     = struct_unpack ("b" ++ fmt_char)%string source
  /\ Device.unpack struct_unpack self fmt_char source (Some "little")
     = struct_unpack ("l" ++ fmt_char)%string source
  /\ Device.unpack struct_unpack self fmt_char source None
     = struct_unpack
         ((if Device.big_byte_order self then ">" else "<") ++ fmt_char)%string
         source
  /\ ("b" ++ fmt_char)%string <> (">" ++ fmt_char)%string
  /\ ("l" ++ fmt_char)%string <> ("<" ++ fmt_char)%string.
Proof.
  intros Hfmt.
  assert (Hnot : String.eqb fmt_char "" = false).
  { destruct (String.eqb_spec fmt_char ""); [contradiction|reflexivity]. }
  unfold Device.unpack. rewrite Hnot.
  repeat split; try reflexivity; try discriminate.
  unfold Device._get_byteorder_as_str, Device.is_big_byteorder.
  destruct (Device.big_byte_order self); reflexivity.
Qed.

Lemma unpack_override_first_char_witness :
  Device.unpack echo_format (Device.__init__ I2cAdapter.mk 0x42 true) "H"
    (VBytes [x01; x2c]) (Some "big")
  = Ok [VStr "bH"]
  /\ Device.unpack echo_format (Device.__init__ I2cAdapter.mk 0x42 true) "H"
       (VBytes [x01; x2c]) (Some "little")
     = Ok [VStr "lH"].
Proof.
  pose proof (unpack_override_first_char echo_format
                (Device.__init__ I2cAdapter.mk 0x42 true) "H" (VBytes [x01; x2c])
                ltac:(discriminate)) as (_ & Hbig & Hlittle & _).
  split; [exact Hbig|exact Hlittle].
Defined.

(** * Further properties *)

(** ** Laws of a bit field *)

(** What [get] computes, as arithmetic on bits. *)
Lemma get_testbit (start stop source i : Z) :
  0 <= start <= stop -> 0 <= i ->
  Z.testbit (Z.shiftr (Z.land source (2 ^ (stop + 1) - 2 ^ start)) start) i
  = Z.testbit source (i + start) && (i <=? stop - start).
Proof.
  intros Hr Hi.
  rewrite Z.shiftr_spec, Z.land_spec, mask_testbit by lia.
  f_equal.
  destruct (Z.leb_spec start (i + start)), (Z.leb_spec (i + start) stop),
           (Z.leb_spec i (stop - start)); cbn [andb]; try reflexivity; lia.
Qed.

(** X1: The field of [source] is [source] shifted down and cut to the width. *)
Theorem get_is_div_mod (alias : string) (start stop : Z) (bf : BitField.t)
    (source : Z) :
  BitField.__init__ alias start stop = Ok bf ->
  BitField.get bf source = Ok ((source / 2 ^ start) mod 2 ^ (stop - start + 1))
  /\ exists v, BitField.get bf source = Ok v /\ 0 <= v < 2 ^ (stop - start + 1).
Proof.
  intros Hinit. apply init_ok_inv in Hinit as [Hr ->].
  assert (Hget : BitField.get (BitField.mk alias start stop (2 ^ (stop + 1) - 2 ^ start))
                   source
                 = Ok ((source / 2 ^ start) mod 2 ^ (stop - start + 1))).
  { rewrite get_ok by lia. f_equal.
    rewrite <- Z.shiftr_div_pow2, <- Z.land_ones by lia.
    apply Z.bits_inj'. intros i Hi.
    rewrite get_testbit, Z.land_spec, Z.shiftr_spec, Z.testbit_ones by lia.
    f_equal.
    destruct (Z.leb_spec i (stop - start)), (Z.leb_spec 0 i),
             (Z.ltb_spec i (stop - start + 1)); cbn [andb]; try reflexivity; lia. }
  split; [exact Hget|].
  eexists. split; [exact Hget|].
  apply Z.mod_pos_bound. apply Z.pow_pos_nonneg; lia.
Qed.

Lemma get_is_div_mod_witness :
  BitField.get (BitField.mk "mode" 2 4 28) (-1) = Ok ((-1 / 2 ^ 2) mod 2 ^ (4 - 2 + 1))
  /\ exists v, BitField.get (BitField.mk "mode" 2 4 28) (-1) = Ok v
               /\ 0 <= v < 2 ^ (4 - 2 + 1).
Proof.
  exact (get_is_div_mod "mode" 2 4 (BitField.mk "mode" 2 4 28) (-1) eq_refl).
Defined.

(** X2: Writing back what was read changes nothing. *)
Theorem put_get_identity (alias : string) (start stop : Z) (bf : BitField.t)
    (source : Z) :
  BitField.__init__ alias start stop = Ok bf ->
  exists v, BitField.get bf source = Ok v /\ BitField.put bf source v = Ok source.
Proof.
  intros Hinit. apply init_ok_inv in Hinit as [Hr ->].
  eexists. split; [apply get_ok; lia|].
  rewrite put_ok by lia. f_equal.
  apply Z.bits_inj'. intros i Hi.
  rewrite put_testbit by lia.
  destruct (Z.leb_spec start i), (Z.leb_spec i stop); cbn [andb]; try reflexivity.
  rewrite get_testbit by lia.
  replace (i - start + start) with i by lia.
  destruct (Z.leb_spec (i - start) (stop - start)); [|lia].
  now rewrite andb_true_r.
Qed.

Lemma put_get_identity_witness :
  exists v, BitField.get (BitField.mk "mode" 2 4 28) 0xC7 = Ok v
            /\ BitField.put (BitField.mk "mode" 2 4 28) 0xC7 v = Ok 0xC7.
Proof.
  exact (put_get_identity "mode" 2 4 (BitField.mk "mode" 2 4 28) 0xC7 eq_refl).
Defined.

(** X3: A second [put] into the same field overwrites the first. *)
Theorem put_put_overwrites (alias : string) (start stop : Z) (bf : BitField.t)
    (source first second : Z) :
  BitField.__init__ alias start stop = Ok bf ->
  rbind (BitField.put bf source first) (fun s => BitField.put bf s second)
  = BitField.put bf source second
  /\ exists r, BitField.put bf source second = Ok r.
Proof.
  intros Hinit. apply init_ok_inv in Hinit as [Hr ->].
  rewrite !put_ok by lia. cbn [rbind]. rewrite put_ok by lia.
  split; [|eexists; reflexivity]. f_equal.
  apply Z.bits_inj'. intros i Hi.
  rewrite !put_testbit by lia.
  destruct ((start <=? i) && (i <=? stop)); reflexivity.
Qed.

Lemma put_put_overwrites_witness :
  rbind (BitField.put (BitField.mk "mode" 2 4 28) 0xC3 7)
        (fun s => BitField.put (BitField.mk "mode" 2 4 28) s 2)
  = BitField.put (BitField.mk "mode" 2 4 28) 0xC3 2
  /\ exists r, BitField.put (BitField.mk "mode" 2 4 28) 0xC3 2 = Ok r.
Proof.
  exact (put_put_overwrites "mode" 2 4 (BitField.mk "mode" 2 4 28) 0xC3 7 2 eq_refl).
Defined.

(** X4: Two fields whose ranges do not overlap do not disturb each other:
    a [put] into one leaves the [get] of the other unchanged, and the
    two [put]s can be done in either order. *)
Theorem disjoint_fields_independent (alias_f alias_g : string) (a b c d : Z)
    (f g : BitField.t) (source x y : Z) :
  BitField.__init__ alias_f a b = Ok f ->
  BitField.__init__ alias_g c d = Ok g ->
  b < c \/ d < a ->
  rbind (BitField.put g source x) (fun s => BitField.get f s) = BitField.get f source
  /\ rbind (BitField.put g source x) (fun s => BitField.put f s y)
     = rbind (BitField.put f source y) (fun s => BitField.put g s x).
Proof.
  intros Hf Hg Hdisjoint.
  apply init_ok_inv in Hf as [Hab ->]. apply init_ok_inv in Hg as [Hcd ->].
  rewrite !put_ok by lia. cbn [rbind]. rewrite !put_ok, !get_ok by lia.
  split; f_equal; apply Z.bits_inj'; intros i Hi.
  - rewrite !get_testbit by lia.
    destruct (Z.leb_spec i (b - a)); [|now rewrite !andb_false_r].
    rewrite !andb_true_r, put_testbit by lia.
    destruct (Z.leb_spec c (i + a)), (Z.leb_spec (i + a) d); cbn [andb];
      try reflexivity; lia.
  - rewrite !put_testbit by lia.
    destruct (Z.leb_spec a i), (Z.leb_spec i b), (Z.leb_spec c i), (Z.leb_spec i d);
      cbn [andb]; try reflexivity; lia.
Qed.

Lemma disjoint_fields_independent_witness :
  rbind (BitField.put (BitField.mk "rate" 5 7 224) 0x0C 5)
        (fun s => BitField.get (BitField.mk "mode" 2 4 28) s)
  = BitField.get (BitField.mk "mode" 2 4 28) 0x0C
  /\ rbind (BitField.put (BitField.mk "rate" 5 7 224) 0x0C 5)
           (fun s => BitField.put (BitField.mk "mode" 2 4 28) s 6)
     = rbind (BitField.put (BitField.mk "mode" 2 4 28) 0x0C 6)
             (fun s => BitField.put (BitField.mk "rate" 5 7 224) s 5).
Proof.
  apply (disjoint_fields_independent "mode" "rate" 2 4 5 7
           (BitField.mk "mode" 2 4 28) (BitField.mk "rate" 5 7 224) 0x0C 5 6).
  - reflexivity.
  - reflexivity.
  - left. lia.
Defined.

(** Adding two integers with no bit in common is their bitwise or. *)
Lemma add_disjoint_lor (a b : Z) : Z.land a b = 0 -> a + b = Z.lor a b.
Proof.
  intros Hab. rewrite Z.add_nocarry_lxor by assumption. now apply Z.lxor_lor.
Qed.

(** X5: [put] as arithmetic: the field's old content is taken out of
    [source] and [value], cut to the width, is put in its place. *)
Theorem put_is_arithmetic (alias : string) (start stop : Z) (bf : BitField.t)
    (source value : Z) :
  BitField.__init__ alias start stop = Ok bf ->
  BitField.put bf source value
  = Ok (source
        + (value mod 2 ^ (stop - start + 1)
           - (source / 2 ^ start) mod 2 ^ (stop - start + 1)) * 2 ^ start).
Proof.
  intros Hinit. apply init_ok_inv in Hinit as [Hr ->].
  rewrite put_ok by lia. f_equal.
  set (m := 2 ^ (stop + 1) - 2 ^ start).
  set (w := stop - start + 1).
  assert (Hfield : forall z, Z.land (Z.shiftl z start) m = (z mod 2 ^ w) * 2 ^ start).
  { intros z. rewrite <- Z.shiftl_mul_pow2, <- Z.land_ones by lia.
    apply Z.bits_inj'. intros i Hi. unfold m, w.
    rewrite Z.land_spec, !Z.shiftl_spec, mask_testbit, Z.land_spec, Z.testbit_ones
      by lia.
    f_equal.
    destruct (Z.leb_spec start i), (Z.leb_spec i stop), (Z.leb_spec 0 (i - start)),
             (Z.ltb_spec (i - start) (stop - start + 1));
      cbn [andb]; try reflexivity; lia. }
  assert (Hold : Z.land source m = ((source / 2 ^ start) mod 2 ^ w) * 2 ^ start).
  { rewrite <- Hfield, <- Z.shiftr_div_pow2 by lia.
    apply Z.bits_inj'. intros i Hi. unfold m.
    rewrite !Z.land_spec, Z.shiftl_spec, mask_testbit by lia.
    destruct (Z.leb_spec start i); cbn [andb]; [|now rewrite !andb_false_r].
    rewrite Z.shiftr_spec by lia. now replace (i - start + start) with i by lia. }
  assert (Hsplit : source = Z.land source (Z.lnot m) + Z.land source m).
  { rewrite add_disjoint_lor.
    - apply Z.bits_inj'. intros i Hi.
      rewrite Z.lor_spec, !Z.land_spec, Z.lnot_spec by lia.
      destruct (Z.testbit source i), (Z.testbit m i); reflexivity.
    - apply Z.bits_inj'. intros i Hi.
      rewrite !Z.land_spec, Z.lnot_spec, Z.bits_0 by lia.
      destruct (Z.testbit source i), (Z.testbit m i); reflexivity. }
  rewrite <- add_disjoint_lor.
  - rewrite Hfield. rewrite Hold in Hsplit. lia.
  - apply Z.bits_inj'. intros i Hi.
    rewrite !Z.land_spec, Z.lnot_spec, Z.bits_0 by lia.
    destruct (Z.testbit source i), (Z.testbit m i), (Z.testbit (Z.shiftl value start) i);
      reflexivity.
Qed.

Lemma put_is_arithmetic_witness :
  BitField.put (BitField.mk "mode" 2 4 28) 0xC7 (-3)
  = Ok (0xC7 + ((-3) mod 2 ^ (4 - 2 + 1) - (0xC7 / 2 ^ 2) mod 2 ^ (4 - 2 + 1)) * 2 ^ 2).
Proof.
  exact (put_is_arithmetic "mode" 2 4 (BitField.mk "mode" 2 4 28) 0xC7 (-3) eq_refl).
Defined.

(** X6: A register value of [width] bits stays one after a [put] into a
    field inside the register, whatever [value] is, negative included. *)
Theorem put_within_register (alias : string) (start stop : Z) (bf : BitField.t)
    (width source value : Z) :
  BitField.__init__ alias start stop = Ok bf ->
  stop < width ->
  0 <= source < 2 ^ width ->
  exists packed,
    BitField.put bf source value = Ok packed /\ 0 <= packed < 2 ^ width.
Proof.
  intros Hinit Hstop Hsource. apply init_ok_inv in Hinit as [Hr ->].
  eexists. split; [apply put_ok; lia|].
  set (packed := Z.lor _ _).
  assert (Hlow : packed = packed mod 2 ^ width).
  { rewrite <- Z.land_ones by lia.
    apply Z.bits_inj'. intros i Hi. unfold packed.
    rewrite Z.land_spec, Z.testbit_ones, put_testbit by lia.
    destruct (Z.leb_spec 0 i); [|lia].
    destruct (Z.ltb_spec i width); cbn [andb]; [now rewrite andb_true_r|].
    rewrite andb_false_r.
    destruct (Z.leb_spec start i), (Z.leb_spec i stop); cbn [andb]; try lia.
    rewrite <- (Z.mod_small source (2 ^ width)) by assumption.
    apply Z.mod_pow2_bits_high. lia. }
  rewrite Hlow. apply Z.mod_pos_bound. apply Z.pow_pos_nonneg; lia.
Qed.

Lemma put_within_register_witness :
  exists packed,
    BitField.put (BitField.mk "mode" 2 4 28) 0xC3 (-1) = Ok packed
    /\ 0 <= packed < 2 ^ 8.
Proof.
  apply (put_within_register "mode" 2 4 (BitField.mk "mode" 2 4 28) 8 0xC3 (-1)).
  - reflexivity.
  - lia.
  - cbn. lia.
Defined.

(** X7: Masks of neighbouring fields: they share no bit, and together they
    are the mask of the range that spans both. *)
Theorem bitmask_adjacent (a b c m1 m2 : Z) :
  0 <= a <= b -> b < c ->
  BitField._bitmask a b = Ok m1 ->
  BitField._bitmask (b + 1) c = Ok m2 ->
  Z.land m1 m2 = 0
  /\ BitField._bitmask a c = Ok (Z.lor m1 m2)
  /\ 0 < m1 < 2 ^ (b + 1).
Proof.
  intros Hab Hbc H1 H2.
  rewrite bitmask_ok in H1 by lia. rewrite bitmask_ok in H2 by lia.
  injection H1 as <-. injection H2 as <-.
  split; [|split].
  - apply Z.bits_inj'. intros i Hi.
    rewrite Z.land_spec, !mask_testbit, Z.bits_0 by lia.
    destruct (Z.leb_spec a i), (Z.leb_spec i b), (Z.leb_spec (b + 1) i),
             (Z.leb_spec i c); cbn [andb]; try reflexivity; lia.
  - rewrite bitmask_ok by lia. f_equal.
    apply Z.bits_inj'. intros i Hi.
    rewrite Z.lor_spec, !mask_testbit by lia.
    destruct (Z.leb_spec a i), (Z.leb_spec i b), (Z.leb_spec (b + 1) i),
             (Z.leb_spec i c); cbn [andb orb]; try reflexivity; lia.
  - assert (0 < 2 ^ a) by (apply Z.pow_pos_nonneg; lia).
    assert (2 ^ a < 2 ^ (b + 1)) by (apply Z.pow_lt_mono_r; lia).
    lia.
Qed.

Lemma bitmask_adjacent_witness :
  Z.land 28 224 = 0
  /\ BitField._bitmask 2 7 = Ok (Z.lor 28 224)
  /\ 0 < 28 < 2 ^ (4 + 1).
Proof.
  apply (bitmask_adjacent 2 4 7 28 224).
  - lia.
  - lia.
  - reflexivity.
  - reflexivity.
Defined.

(** ** The functions of base_sensor.py *)

Lemma contains_In (valid_range : list Z) (v : Z) :
  base_sensor.contains valid_range v = true <-> In v valid_range.
Proof.
  unfold base_sensor.contains. rewrite existsb_exists. split.
  - intros (x & Hin & Heq). apply Z.eqb_eq in Heq. now subst.
  - intros Hin. exists v. split; [assumption|apply Z.eqb_refl].
Qed.

Lemma In_range (a b v : Z) : In v (Py.range a b) <-> a <= v < b.
Proof.
  unfold Py.range. rewrite in_map_iff. split.
  - intros (k & <- & Hk). apply in_seq in Hk. lia.
  - intros Hv. exists (Z.to_nat (v - a)). split; [lia|].
    apply in_seq. lia.
Qed.

(** X8: [check_value] lets [None] through whatever the range is, returns a
    value of the range as it is, and raises [ValueError(error_msg)] for
    any other value; over [range(a, b)] the accepted values are exactly
    [a <= value < b]. What it returns is always its argument. *)
Theorem check_value_spec (valid_range : list Z) (error_msg : string) :
  base_sensor.check_value None valid_range error_msg = Ok None
  /\ (forall v, In v valid_range ->
        base_sensor.check_value (Some v) valid_range error_msg = Ok (Some v))
  /\ (forall v, ~ In v valid_range ->
        base_sensor.check_value (Some v) valid_range error_msg
        = Raise (ValueError error_msg))
  /\ (forall value res,
        base_sensor.check_value value valid_range error_msg = Ok res -> res = value)
  /\ (forall a b v,
        base_sensor.check_value (Some v) (Py.range a b) error_msg
        = if (a <=? v) && (v <? b) then Ok (Some v) else Raise (ValueError error_msg)).
Proof.
  assert (Hin : forall r v, In v r ->
            base_sensor.check_value (Some v) r error_msg = Ok (Some v)).
  { intros r v Hv. unfold base_sensor.check_value.
    apply contains_In in Hv. now rewrite Hv. }
  assert (Hout : forall r v, ~ In v r ->
            base_sensor.check_value (Some v) r error_msg = Raise (ValueError error_msg)).
  { intros r v Hv. unfold base_sensor.check_value.
    destruct (base_sensor.contains r v) eqn:Hc; [|reflexivity].
    apply contains_In in Hc. contradiction. }
  split; [reflexivity|]. split; [apply Hin|]. split; [apply Hout|]. split.
  - intros [v|] res; cbn [base_sensor.check_value].
    + destruct (negb (base_sensor.contains valid_range v)); [discriminate|].
      now intros [= <-].
    + now intros [= <-].
  - intros a b v.
    destruct (Z.leb_spec a v), (Z.ltb_spec v b); cbn [andb];
      try (apply Hout; rewrite In_range; lia).
    apply Hin. rewrite In_range. lia.
Qed.

Lemma check_value_spec_witness :
  base_sensor.check_value (Some 3) (Py.range 0 8) "out of range" = Ok (Some 3)
  /\ base_sensor.check_value (Some 8) (Py.range 0 8) "out of range"
     = Raise (ValueError "out of range").
Proof.
  split.
  - apply (proj1 (proj2 (check_value_spec (Py.range 0 8) "out of range")) 3).
    apply In_range. lia.
  - apply (proj1 (proj2 (proj2 (check_value_spec (Py.range 0 8) "out of range"))) 8).
    rewrite In_range. lia.
Defined.

(** X9: [_all_none] is [True] exactly when every argument is [None] (so it
    is [True] for no argument at all), and [False] exactly when some
    argument is not [None]. *)
Theorem all_none_spec (args : list pyval) :
  (base_sensor._all_none args = true <-> Forall (fun element => element = VNone) args)
  /\ (base_sensor._all_none args = false
      <-> exists element, In element args /\ element <> VNone).
Proof.
  induction args as [|element rest [IHt IHf]]; cbn [base_sensor._all_none].
  - split; split.
    + intros _. constructor.
    + reflexivity.
    + discriminate.
    + intros (element & [] & _).
  - destruct element; cbn [base_sensor.is_not_None];
      try (split; split;
           [discriminate
           | intros Hall; inversion Hall; discriminate
           | intros _; eexists; split; [left; reflexivity|discriminate]
           | reflexivity]).
    split; split.
    + intros Hrest. constructor; [reflexivity|now apply IHt].
    + intros Hall. inversion Hall. now apply IHt.
    + intros Hrest. apply IHf in Hrest as (element & Hin & Hne).
      exists element. split; [now right|assumption].
    + intros (element & [<-|Hin] & Hne); [contradiction|].
      apply IHf. now exists element.
Qed.

(** X10: [Device.unpack] checks its arguments before it decodes: an empty
    [fmt_char] is a [ValueError] whatever the other arguments are, and
    an empty (not [None]) [redefine_byte_order] is the [IndexError] of
    taking its first character. In both cases [struct.unpack] is not
    reached: the outcome does not depend on it. *)
Theorem unpack_rejects_empty {T Addr : Type}
    (struct_unpack : string -> pyval -> result (list pyval))
    (self : Device.t T Addr) (source : pyval) :
  (forall redefine_byte_order,
     Device.unpack struct_unpack self "" source redefine_byte_order
     = Raise (ValueError "Invalid length fmt_char parameter: 0"))
  /\ (forall fmt_char, fmt_char <> "" ->
        Device.unpack struct_unpack self fmt_char source (Some "")
        = Raise (IndexError "string index out of range")).
Proof.
  split.
  - intros redefine_byte_order. reflexivity.
  - intros fmt_char Hfmt. unfold Device.unpack.
    destruct (String.eqb_spec fmt_char ""); [contradiction|reflexivity].
Qed.

Lemma unpack_rejects_empty_witness :
  Device.unpack echo_format (Device.__init__ I2cAdapter.mk 0x42 true) "H"
    (VBytes [x01; x2c]) (Some "")
  = Raise (IndexError "string index out of range").
Proof.
  apply (proj2 (unpack_rejects_empty echo_format
                  (Device.__init__ I2cAdapter.mk 0x42 true) (VBytes [x01; x2c])) "H").
  discriminate.
Defined.

(** ** The device facade over I2C *)

Lemma to_bytes_ok (v count : Z) (order : string) :
  order = "big" \/ order = "little" ->
  0 <= v < 256 ^ count ->
  Py.to_bytes v count order
  = Ok (if String.eqb order "little" then Py.le_bytes (Z.to_nat count) v
        else rev (Py.le_bytes (Z.to_nat count) v)).
Proof.
  intros Horder Hv.
  assert (Hcount : 0 <= count).
  { destruct (Z.lt_ge_cases count 0) as [Hneg|]; [|assumption].
    rewrite Z.pow_neg_r in Hv by assumption. lia. }
  unfold Py.to_bytes.
  destruct (Z.ltb_spec count 0); [lia|].
  destruct (Z.ltb_spec v 0); [lia|].
  destruct (Z.leb_spec (256 ^ count) v); [lia|].
  destruct Horder as [-> | ->]; reflexivity.
Qed.

(** X11: [DeviceEx.write_reg] on an I2C device encodes an integer in the
    byte order the device was constructed with: the bus gets one
    [writeto_mem] at the device's address, with exactly [bytes_count]
    bytes that read back in that order as the value; a device of the
    other byte order sends the same bytes reversed. *)
Theorem write_reg_uses_device_byte_order (address reg_addr n bytes_count : Z)
    (value : pyval) (big msb : bool) (w : world) :
  isinstance_int value = Some n ->
  0 <= n < 256 ^ bytes_count ->
  exists buf,
    DeviceEx.write_reg (Device.mk I2cAdapter.mk address big msb) reg_addr value
      bytes_count w
    = bus_call (I2C_writeto_mem address reg_addr (VBytes buf)) w
    /\ Z.of_nat (List.length buf) = bytes_count
    /\ Py.from_bytes buf (if big then "big" else "little") = n
    /\ DeviceEx.write_reg (Device.mk I2cAdapter.mk address (negb big) msb) reg_addr
         value bytes_count w
       = bus_call (I2C_writeto_mem address reg_addr (VBytes (rev buf))) w.
Proof.
  intros Hint Hfits.
  assert (Hcount : 0 <= bytes_count).
  { destruct (Z.lt_ge_cases bytes_count 0) as [Hneg|]; [|assumption].
    rewrite Z.pow_neg_r in Hfits by assumption. lia. }
  assert (Hwrite : forall order buf,
            Py.to_bytes n bytes_count order = Ok buf ->
            I2cAdapter.write_register I2cAdapter.mk address reg_addr value
              bytes_count order w
            = bus_call (I2C_writeto_mem address reg_addr (VBytes buf)) w).
  { intros order buf Hto. unfold I2cAdapter.write_register.
    rewrite Hint. unfold bind, lift, ret. rewrite Hto.
    destruct value; try discriminate; reflexivity. }
  pose proof (to_bytes_ok n bytes_count "big" (or_introl eq_refl) Hfits) as Hbig.
  pose proof (to_bytes_ok n bytes_count "little" (or_intror eq_refl) Hfits) as Hlittle.
  cbn [String.eqb Ascii.eqb Bool.eqb] in Hbig, Hlittle.
  pose proof (le_value_le_bytes (Z.to_nat bytes_count) n) as Hback.
  rewrite Z2Nat.id in Hback by assumption. specialize (Hback Hfits).
  unfold DeviceEx.write_reg, Device._get_byteorder_as_str, Device.is_big_byteorder.
  cbn [Device.adapter Device.address Device.big_byte_order write_register
       I2cAdapter_adapter].
  destruct big; cbn [negb fst]; eexists; repeat split.
  - apply Hwrite. exact Hbig.
  - rewrite length_rev, length_le_bytes. lia.
  - unfold Py.from_bytes. cbn [String.eqb Ascii.eqb Bool.eqb].
    now rewrite rev_involutive.
  - rewrite rev_involutive. apply Hwrite. exact Hlittle.
  - apply Hwrite. exact Hlittle.
  - rewrite length_le_bytes. lia.
  - exact Hback.
  - apply Hwrite. exact Hbig.
Qed.

Lemma write_reg_uses_device_byte_order_witness :
  exists buf,
    DeviceEx.write_reg (Device.mk I2cAdapter.mk 0x42 false true) 0x10 (VInt 300) 2
      (idle accepting)
    = bus_call (I2C_writeto_mem 0x42 0x10 (VBytes buf)) (idle accepting)
    /\ Z.of_nat (List.length buf) = 2
    /\ Py.from_bytes buf "little" = 300
    /\ DeviceEx.write_reg (Device.mk I2cAdapter.mk 0x42 (negb false) true) 0x10
         (VInt 300) 2 (idle accepting)
       = bus_call (I2C_writeto_mem 0x42 0x10 (VBytes (rev buf))) (idle accepting).
Proof.
  apply (write_reg_uses_device_byte_order 0x42 0x10 300 2 (VInt 300) false true
           (idle accepting)).
  - reflexivity.
  - cbn. lia.
Defined.


(** ** Pins around an SPI transaction *)

(** X13: A transaction moves two pins at most: chip-select, and the
    data-mode pin when a writing transaction signals on it. Every other
    pin keeps its level, and so does the transport; a data-mode pin that
    is not the chip-select pin is left at [data_packet]. *)
Theorem spi_transaction_frame (self : SpiAdapter.t) (cs : pin) (tx : transaction)
    (w : world) :
  transport (fst (run self cs tx w)) = transport w
  /\ (forall q, q <> cs ->
        data_mode_calls self tx = [] \/ SpiAdapter.data_mode_pin self <> Some q ->
        level (fst (run self cs tx w)) q = level w q)
  /\ (forall dm, dm <> cs ->
        data_mode_calls self tx = [Pin_value dm (SpiAdapter.data_packet self)] ->
        level (fst (run self cs tx w)) dm = SpiAdapter.data_packet self).
Proof.
  rewrite run_unfold. cbn [fst drive log transport level].
  split; [|split].
  - destruct self as [[dm|] [|] packet]; destruct tx; reflexivity.
  - intros q Hq Hdm.
    assert (Hqcs : Nat.eqb q cs = false) by now apply Nat.eqb_neq.
    destruct self as [[dm|] [|] packet]; destruct tx;
      cbn [after_data_mode data_mode_calls SpiAdapter.use_data_mode_pin
           SpiAdapter.data_mode_pin SpiAdapter.data_packet drive log level] in *;
      rewrite ?Hqcs; try reflexivity;
      (destruct Hdm as [Hdm|Hdm]; [discriminate Hdm|]);
      (destruct (Nat.eqb_spec q dm) as [->|_]; [now contradiction Hdm|]);
      reflexivity.
  - intros dm Hne Hcalls.
    assert (Hdmcs : Nat.eqb dm cs = false) by now apply Nat.eqb_neq.
    destruct self as [[dm'|] [|] packet]; destruct tx;
      cbn [after_data_mode data_mode_calls SpiAdapter.use_data_mode_pin
           SpiAdapter.data_mode_pin SpiAdapter.data_packet drive log level] in *;
      try discriminate Hcalls;
      injection Hcalls as ->; now rewrite Hdmcs, Nat.eqb_refl.
Qed.

Lemma spi_transaction_frame_witness :
  level (fst (run (SpiAdapter.mk (Some 7%nat) true false) 3%nat
               (Tx_write (VBytes [x2a])) (idle accepting))) 5%nat
  = level (idle accepting) 5%nat
  /\ level (fst (run (SpiAdapter.mk (Some 7%nat) true false) 3%nat
                  (Tx_write (VBytes [x2a])) (idle accepting))) 7%nat
     = false.
Proof.
  pose proof (spi_transaction_frame (SpiAdapter.mk (Some 7%nat) true false) 3%nat
                (Tx_write (VBytes [x2a])) (idle accepting)) as (_ & Hother & Hdm).
  split.
  - apply Hother; [discriminate|]. right. discriminate.
  - apply (Hdm 7%nat); [discriminate|reflexivity].
Defined.



(** X15: An adapter as [__init__] returns it does not use its data-mode pin,
    even when it was given one: until [use_data_mode_pin] is set, every
    transaction is select, bus operation, release, and no other pin
    moves. *)
Theorem fresh_adapter_does_not_signal (data_mode : option pin) (cs : pin)
    (tx : transaction) (w : world) :
  calls (fst (run (SpiAdapter.__init__ data_mode) cs tx w))
  = (calls w ++ [Pin_low cs; bus_operation tx; Pin_high cs])%list
  /\ forall q, q <> cs ->
       level (fst (run (SpiAdapter.__init__ data_mode) cs tx w)) q = level w q.
Proof.
  rewrite run_unfold. cbn [fst].
  split.
  - destruct tx; cbn [after_data_mode SpiAdapter.__init__
                      SpiAdapter.use_data_mode_pin drive log calls];
      now rewrite <- !app_assoc.
  - intros q Hq.
    assert (Hqcs : Nat.eqb q cs = false) by now apply Nat.eqb_neq.
    destruct tx; cbn [after_data_mode SpiAdapter.__init__
                      SpiAdapter.use_data_mode_pin drive log level];
      now rewrite !Hqcs.
Qed.

Lemma fresh_adapter_does_not_signal_witness :
  calls (fst (run (SpiAdapter.__init__ (Some 7%nat)) 3%nat
               (Tx_write (VBytes [x2a])) (idle accepting)))
  = ([] ++ [Pin_low 3%nat; SPI_write (VBytes [x2a]); Pin_high 3%nat])%list
  /\ level (fst (run (SpiAdapter.__init__ (Some 7%nat)) 3%nat
                  (Tx_write (VBytes [x2a])) (idle accepting))) 7%nat
     = level (idle accepting) 7%nat.
Proof.
  pose proof (fresh_adapter_does_not_signal (Some 7%nat) 3%nat
                (Tx_write (VBytes [x2a])) (idle accepting)) as [Hcalls Hlevel].
  split; [exact Hcalls|]. apply Hlevel. discriminate.
Defined.
